(** * AuthKit for TanStack Start: server actions, request middleware and the
      client auth provider

    A shallow embedding of [src/server/actions.ts], the request middleware
    and [src/client/AuthKitProvider.tsx].  JavaScript objects are finite maps
    from property names to values; asynchronous calls are modelled by their
    outcome (resolved or rejected); calls to the session service are
    recorded in a trace. *)

From Stdlib Require Import Ascii String.
From stdpp Require Import gmap strings list fin_maps.

Set Warnings "-register-all".

(** ** JavaScript values *)

Module JS.

(** The values that occur in auth payloads.  Numbers do not occur in any
    field the modelled code reads. *)
Inductive value : Type :=
| VUndefined
| VNull
| VBool (b : bool)
| VStr (s : string)
| VArr (l : list value)
| VObj (o : gmap string value).

(** [!!v] *)
Definition truthy (v : value) : bool :=
  match v with
  | VUndefined | VNull => false
  | VBool b => b
  | VStr s => negb (String.eqb s "")
  | VArr _ | VObj _ => true
  end.

(** [o.k] on a plain object: a missing property reads as [undefined]. *)
Definition get (o : gmap string value) (k : string) : value :=
  default VUndefined (o !! k).

(** ['k' in o] *)
Definition has (k : string) (o : gmap string value) : bool :=
  bool_decide (is_Some (o !! k)).

(** [v.k] for a truthy [v], and [v?.k] for any [v].  The property names read
    this way ([refreshToken], [feature_flags]) are not built-in properties of
    strings, booleans or arrays, so only objects can carry them. *)
Definition prop (v : value) (k : string) : value :=
  match v with
  | VObj o => get o k
  | _ => VUndefined
  end.

(** [s.startsWith(p)] *)
Fixpoint startsWith (p s : string) : bool :=
  match p, s with
  | EmptyString, _ => true
  | String a p', String b s' => Ascii.eqb a b && startsWith p' s'
  | String _ _, EmptyString => false
  end.

(** [s.includes(p)] *)
Fixpoint includes (p s : string) : bool :=
  startsWith p s ||
  match s with
  | EmptyString => false
  | String _ s' => includes p s'
  end.

(** What a [throw] or a rejected promise carries. *)
Inductive thrown : Type :=
| ThrowError (message : string)
    (** an [Error] instance with its [message] *)
| ThrowResponse (location : option string)
    (** a [Response]; [location] is [headers.get('Location')], [None] for null *)
| ThrowValue (v : value).
    (** anything else *)

(** The TypeError of a failed conversion to a primitive. *)
Definition cannot_convert : thrown :=
  ThrowError "Cannot convert object to primitive value".

(** [String(v)], which returns a string or throws.  An array is joined with
    commas, [undefined] and [null] elements giving the empty string.  A plain
    object is converted by the [toString] it inherits, to
    ["[object Object]"]; an own property [toString] hides the inherited one,
    and since no value of this model is callable the conversion then falls
    through [valueOf] (which is missing, not callable, or returns the object
    itself) and throws a TypeError. *)
Fixpoint to_String (v : value) : string + thrown :=
  match v with
  | VUndefined => inl "undefined"
  | VNull => inl "null"
  | VBool true => inl "true"
  | VBool false => inl "false"
  | VStr s => inl s
  | VArr l =>
      (fix join (l : list value) : string + thrown :=
         let elt x := match x with
                      | VUndefined | VNull => inl ""
                      | _ => to_String x
                      end in
         match l with
         | [] => inl ""
         | x :: r =>
             match elt x with
             | inr e => inr e
             | inl s =>
                 match r with
                 | [] => inl s
                 | _ :: _ =>
                     match join r with
                     | inr e => inr e
                     | inl t => inl (s +:+ "," +:+ t)
                     end
                 end
             end
         end) l
  | VObj o => if has "toString" o then inr cannot_convert
              else inl "[object Object]"
  end.

(** The outcome of awaiting a promise. *)
Inductive outcome (A : Type) : Type :=
| Resolved (a : A)
| Rejected (e : thrown).
Arguments Resolved {A} a.
Arguments Rejected {A} e.

(** How a function call completes. *)
Inductive completion : Type :=
| Returns (v : value)
| Throws (e : thrown).

End JS.
Import JS.

(** [{ user: null }] *)
Definition no_user : gmap string value := {["user" := VNull]}.

(** ** Request middleware *)

Module Middleware.

(** The two channels the middleware passes to [args.next]: [context.auth()]
    and [sendContext.auth()]. *)
Record channels : Type := {
  context_auth : gmap string value;
  sendContext_auth : gmap string value
}.

(** The [hydratedAuth] expression of the middleware. *)
Definition hydratedAuth (authResult : gmap string value) : gmap string value :=
  if truthy (get authResult "user") then
    <["user" := get authResult "user"]>
    (<["sessionId" := get authResult "sessionId"]>
    (<["organizationId" := get authResult "organizationId"]>
    (<["role" := get authResult "role"]>
    (<["roles" := get authResult "roles"]>
    (<["permissions" := get authResult "permissions"]>
    (<["entitlements" := get authResult "entitlements"]>
    (<["featureFlags" := prop (get authResult "claims") "feature_flags"]>
    (<["impersonator" := get authResult "impersonator"]> ∅))))))))
  else no_user.

(** [authkitMiddleware]: [configValidated] is the module-level latch,
    [validateConfig] the outcome of the validation call (consulted only while
    the latch is down), [withAuth] the outcome of [authkit.withAuth(request)].
    The result is the new latch and the channels handed to [args.next], or the
    error that escapes. *)
Definition authkitMiddleware (configValidated : bool)
    (validateConfig : outcome unit) (withAuth : outcome (gmap string value))
  : bool * outcome channels :=
  match (if configValidated then Resolved tt else validateConfig) with
  | Rejected e => (configValidated, Rejected e)
  | Resolved _ =>
      match withAuth with
      | Rejected e => (true, Rejected e)
      | Resolved authResult =>
          (true, Resolved {| context_auth := authResult;
                             sendContext_auth := hydratedAuth authResult |})
      end
  end.

(** The property names the middleware writes into the payload of a
    signed-in request. *)
Definition hydrated_keys : gset string :=
  {[ "user"; "sessionId"; "organizationId"; "role"; "roles"; "permissions";
     "entitlements"; "featureFlags"; "impersonator" ]}.

(** The middleware over the successive requests of one process: the
    module-level [configValidated] is threaded from one request to the next.
    A request is given by the outcome its [validateConfig()] would have and
    the outcome of its [authkit.withAuth(request)]. *)
Fixpoint serve (configValidated : bool)
    (requests : list (outcome unit * outcome (gmap string value)))
  : bool * list (outcome channels) :=
  match requests with
  | [] => (configValidated, [])
  | (validateConfig, withAuth) :: rest =>
      let (latch, response) :=
        authkitMiddleware configValidated validateConfig withAuth in
      let (final, responses) := serve latch rest in
      (final, response :: responses)
  end.

End Middleware.

(** ** Server actions *)

Module Actions.

(** Calls to the session service made by an action, in order. *)
Inductive call : Type :=
| CallGetSession
| CallRefreshSession (session : gmap string value) (organizationId : value).

(** What a server action sees of its request. *)
Record world : Type := {
  auth_in_context : gmap string value;
    (** what [getAuthFromContext()] returns for this request *)
  getSession : outcome value;
    (** [await authkit.getSession(getRequest())] *)
  refreshSession : gmap string value -> value -> outcome (gmap string value)
    (** [await authkit.refreshSession(session, organizationId)] *)
}.

(** [getAuthFromContext] is defined in [server-functions.ts], which is not
    among the sources: what it returns for a request is a parameter of the
    request, and the actions are modelled for every value of it. *)
Definition getAuthFromContext (w : world) : gmap string value :=
  auth_in_context w.


(** [checkSessionAction] *)
Definition checkSessionAction (w : world) : bool :=
  let auth := getAuthFromContext w in
  match get auth "user" with
  | VNull => false
  | _ => true
  end.

(** [getAuthAction] *)
Definition getAuthAction (w : world) : gmap string value :=
  let auth := getAuthFromContext w in
  if negb (truthy (get auth "user")) then no_user
  else delete "accessToken" auth.

(** [const { accessToken: _ignore, claims, ...rest } = result;
     return { ...rest, featureFlags: claims?.feature_flags }] *)
Definition strip (result : gmap string value) : gmap string value :=
  let claims := get result "claims" in
  let rest := delete "accessToken" (delete "claims" result) in
  <["featureFlags" := prop claims "feature_flags"]> rest.

(** The first argument of [authkit.refreshSession]. *)
Definition session_arg (auth : gmap string value) (session : value)
  : gmap string value :=
  <["accessToken" := get auth "accessToken"]>
  (<["refreshToken" := prop session "refreshToken"]>
  (<["user" := get auth "user"]>
  (<["impersonator" := get auth "impersonator"]> ∅))).

(** [refreshAuthAction]; [options] is the validated input. *)
Definition refreshAuthAction (w : world) (options : value)
  : list call * outcome (gmap string value) :=
  let auth := getAuthFromContext w in
  if negb (truthy (get auth "user")) || negb (truthy (get auth "accessToken"))
     || negb (truthy (get auth "sessionId"))
  then ([], Resolved no_user)
  else
    match getSession w with
    | Rejected e => ([CallGetSession], Rejected e)
    | Resolved session =>
        if negb (truthy session) || negb (truthy (prop session "refreshToken"))
        then ([CallGetSession], Resolved no_user)
        else
          let arg := session_arg auth session in
          let org := prop options "organizationId" in
          let calls := [CallGetSession; CallRefreshSession arg org] in
          match refreshSession w arg org with
          | Rejected e => (calls, Rejected e)
          | Resolved result =>
              if negb (truthy (get result "user"))
              then (calls, Resolved no_user)
              else (calls, Resolved (strip result))
          end
    end.

(** [getAccessTokenAction] *)
Definition getAccessTokenAction (w : world) : value :=
  let auth := getAuthFromContext w in
  if truthy (get auth "user") then get auth "accessToken" else VUndefined.

(** [refreshAccessTokenAction] *)
Definition refreshAccessTokenAction (w : world) : list call * outcome value :=
  let auth := getAuthFromContext w in
  if negb (truthy (get auth "user")) || negb (truthy (get auth "accessToken"))
  then ([], Resolved VUndefined)
  else
    match getSession w with
    | Rejected e => ([CallGetSession], Rejected e)
    | Resolved session =>
        if negb (truthy session) || negb (truthy (prop session "refreshToken"))
        then ([CallGetSession], Resolved VUndefined)
        else
          let arg := session_arg auth session in
          let calls := [CallGetSession; CallRefreshSession arg VUndefined] in
          match refreshSession w arg VUndefined with
          | Rejected e => (calls, Rejected e)
          | Resolved result => (calls, Resolved (get result "accessToken"))
          end
    end.

(** [switchToOrganizationAction]; [organizationId] is [data.organizationId]. *)
Definition switchToOrganizationAction (w : world) (organizationId : value)
  : list call * outcome (gmap string value) :=
  let auth := getAuthFromContext w in
  if negb (truthy (get auth "user")) || negb (truthy (get auth "accessToken"))
  then ([], Resolved no_user)
  else
    match getSession w with
    | Rejected e => ([CallGetSession], Rejected e)
    | Resolved session =>
        if negb (truthy session) || negb (truthy (prop session "refreshToken"))
        then ([CallGetSession], Resolved no_user)
        else
          let arg := session_arg auth session in
          let calls := [CallGetSession; CallRefreshSession arg organizationId] in
          match refreshSession w arg organizationId with
          | Rejected e => (calls, Rejected e)
          | Resolved result =>
              if negb (truthy (get result "user"))
              then (calls, Resolved no_user)
              else (calls, Resolved (strip result))
          end
    end.

(** A call made by an action is in order for the context's [auth] and the
    outcome [stored] of [getSession]: a token refresh carries the context's
    access token, user and impersonator and the refresh token of the stored
    session, and none of the three credentials is missing. *)
Definition credentialed (auth : gmap string value) (stored : outcome value)
    (c : call) : Prop :=
  match c with
  | CallGetSession => True
  | CallRefreshSession session _ =>
      dom session = {[ "accessToken"; "refreshToken"; "user"; "impersonator" ]} ∧
      get session "accessToken" = get auth "accessToken" ∧
      get session "user" = get auth "user" ∧
      get session "impersonator" = get auth "impersonator" ∧
      (∃ found, stored = Resolved found ∧
                get session "refreshToken" = prop found "refreshToken") ∧
      truthy (get session "accessToken") = true ∧
      truthy (get session "refreshToken") = true ∧
      truthy (get session "user") = true
  end.

(** [session && session.refreshToken] on the outcome of [getSession]: the
    stored session can be used for a token refresh. *)
Definition session_usable (stored : outcome value) : bool :=
  match stored with
  | Resolved session => truthy session && truthy (prop session "refreshToken")
  | Rejected _ => false
  end.

End Actions.

(** ** Client auth provider *)

Module Provider.

(** The provider's [useState] cells. *)
Record auth_state : Type := {
  user : value;
  sessionId : value;
  organizationId : value;
  role : value;
  roles : value;
  permissions : value;
  entitlements : value;
  featureFlags : value;
  impersonator : value;
  loading : bool
}.

(** Calls of the state setters. *)
Inductive setter : Type :=
| setUser (v : value)
| setSessionId (v : value)
| setOrganizationId (v : value)
| setRole (v : value)
| setRoles (v : value)
| setPermissions (v : value)
| setEntitlements (v : value)
| setFeatureFlags (v : value)
| setImpersonator (v : value)
| setLoading (b : bool).

(** One setter call replaces one cell. *)
Definition apply_setter (s : auth_state) (a : setter) : auth_state :=
  match a with
  | setUser x =>
      {| user := x; sessionId := sessionId s; organizationId := organizationId s; role := role s;
         roles := roles s; permissions := permissions s; entitlements := entitlements s; featureFlags := featureFlags s;
         impersonator := impersonator s; loading := loading s |}
  | setSessionId x =>
      {| user := user s; sessionId := x; organizationId := organizationId s; role := role s;
         roles := roles s; permissions := permissions s; entitlements := entitlements s; featureFlags := featureFlags s;
         impersonator := impersonator s; loading := loading s |}
  | setOrganizationId x =>
      {| user := user s; sessionId := sessionId s; organizationId := x; role := role s;
         roles := roles s; permissions := permissions s; entitlements := entitlements s; featureFlags := featureFlags s;
         impersonator := impersonator s; loading := loading s |}
  | setRole x =>
      {| user := user s; sessionId := sessionId s; organizationId := organizationId s; role := x;
         roles := roles s; permissions := permissions s; entitlements := entitlements s; featureFlags := featureFlags s;
         impersonator := impersonator s; loading := loading s |}
  | setRoles x =>
      {| user := user s; sessionId := sessionId s; organizationId := organizationId s; role := role s;
         roles := x; permissions := permissions s; entitlements := entitlements s; featureFlags := featureFlags s;
         impersonator := impersonator s; loading := loading s |}
  | setPermissions x =>
      {| user := user s; sessionId := sessionId s; organizationId := organizationId s; role := role s;
         roles := roles s; permissions := x; entitlements := entitlements s; featureFlags := featureFlags s;
         impersonator := impersonator s; loading := loading s |}
  | setEntitlements x =>
      {| user := user s; sessionId := sessionId s; organizationId := organizationId s; role := role s;
         roles := roles s; permissions := permissions s; entitlements := x; featureFlags := featureFlags s;
         impersonator := impersonator s; loading := loading s |}
  | setFeatureFlags x =>
      {| user := user s; sessionId := sessionId s; organizationId := organizationId s; role := role s;
         roles := roles s; permissions := permissions s; entitlements := entitlements s; featureFlags := x;
         impersonator := impersonator s; loading := loading s |}
  | setImpersonator x =>
      {| user := user s; sessionId := sessionId s; organizationId := organizationId s; role := role s;
         roles := roles s; permissions := permissions s; entitlements := entitlements s; featureFlags := featureFlags s;
         impersonator := x; loading := loading s |}
  | setLoading x =>
      {| user := user s; sessionId := sessionId s; organizationId := organizationId s; role := role s;
         roles := roles s; permissions := permissions s; entitlements := entitlements s; featureFlags := featureFlags s;
         impersonator := impersonator s; loading := x |}
  end.

(** The setter calls of one synchronous stretch of code are committed
    together: consumers of the context see the state before the stretch and
    the state after it, nothing in between. *)
Definition commit (s : auth_state) (calls : list setter) : auth_state :=
  fold_left apply_setter calls s.

(** The initial [useState] values, from the hydrated payload (or
    [{ user: null }] when there is none). *)
Definition initial_state (hydrated : option (gmap string value)) : auth_state :=
  let initialAuth := default no_user hydrated in
  {| user := get initialAuth "user";
     sessionId := if truthy (get initialAuth "user")
                  then get initialAuth "sessionId" else VUndefined;
     organizationId := if has "organizationId" initialAuth
                       then get initialAuth "organizationId" else VUndefined;
     role := if has "role" initialAuth then get initialAuth "role" else VUndefined;
     roles := if has "roles" initialAuth then get initialAuth "roles" else VUndefined;
     permissions := if has "permissions" initialAuth
                    then get initialAuth "permissions" else VUndefined;
     entitlements := if has "entitlements" initialAuth
                     then get initialAuth "entitlements" else VUndefined;
     featureFlags := if has "featureFlags" initialAuth
                     then get initialAuth "featureFlags" else VUndefined;
     impersonator := if has "impersonator" initialAuth
                     then get initialAuth "impersonator" else VUndefined;
     loading := false |}.

(** One run of an async operation with a single [await]: the setter calls
    made before the [await], those made in the continuation once the awaited
    promise has settled, and how the operation completes. *)
Record run : Type := {
  before_await : list setter;
  after_await : list setter;
  completes : completion
}.

(** The state consumers see while the awaited call is pending. *)
Definition pending_state (s : auth_state) (r : run) : auth_state :=
  commit s (before_await r).

(** The state consumers see once the operation has completed. *)
Definition final_state (s : auth_state) (r : run) : auth_state :=
  commit (pending_state s r) (after_await r).

(** The [catch] block of [refreshAuth] and [handleSwitchToOrganization]:
    [return error instanceof Error ? { error: error.message }
                                   : { error: String(error) }].
    It returns the descriptor, or throws what [String(error)] throws.  A
    [Response] converts to ["[object Response]"]. *)
Definition error_descriptor (e : thrown) : completion :=
  match e with
  | ThrowError message => Returns (VObj {["error" := VStr message]})
  | ThrowResponse _ => Returns (VObj {["error" := VStr "[object Response]"]})
  | ThrowValue v =>
      match to_String v with
      | inl s => Returns (VObj {["error" := VStr s]})
      | inr e' => Throws e'
      end
  end.

(** What the client's [await] of a server action gives: the outcome of the
    action on the server, unless the round trip itself fails with [transport]. *)
Definition awaited {A : Type} (transport : option thrown)
    (served : list Actions.call * outcome A) : outcome A :=
  match transport with
  | Some error => Rejected error
  | None => snd served
  end.

(** [refreshAuth], given the outcome of [await refreshAuthAction(...)]. *)
Definition refreshAuth (action : outcome (gmap string value)) : run :=
  match action with
  | Resolved auth =>
      {| before_await := [setLoading true];
         after_await :=
           [ setUser (get auth "user");
             setSessionId (if truthy (get auth "user")
                           then get auth "sessionId" else VUndefined);
             setOrganizationId (if has "organizationId" auth
                                then get auth "organizationId" else VUndefined);
             setRole (if has "role" auth then get auth "role" else VUndefined);
             setRoles (if has "roles" auth then get auth "roles" else VUndefined);
             setPermissions (if has "permissions" auth
                             then get auth "permissions" else VUndefined);
             setEntitlements (if has "entitlements" auth
                              then get auth "entitlements" else VUndefined);
             setFeatureFlags (if has "featureFlags" auth
                              then get auth "featureFlags" else VUndefined);
             setImpersonator (if has "impersonator" auth
                              then get auth "impersonator" else VUndefined);
             setLoading false ];
         completes := Returns VUndefined |}
  | Rejected error =>
      {| before_await := [setLoading true];
         after_await := [setLoading false];
         completes := error_descriptor error |}
  end.

(** [handleSwitchToOrganization], given the outcome of
    [await switchToOrganizationAction(...)]. *)
Definition handleSwitchToOrganization (action : outcome (gmap string value))
  : run :=
  match action with
  | Resolved auth =>
      if negb (truthy (get auth "user")) then
        {| before_await := [setLoading true];
           after_await :=
             [ setUser VNull;
               setSessionId VUndefined;
               setOrganizationId VUndefined;
               setRole VUndefined;
               setRoles VUndefined;
               setPermissions VUndefined;
               setEntitlements VUndefined;
               setFeatureFlags VUndefined;
               setImpersonator VUndefined;
               setLoading false ];
           completes := Returns VUndefined |}
      else
        {| before_await := [setLoading true];
           after_await :=
             [ setUser (get auth "user");
               setSessionId (get auth "sessionId");
               setOrganizationId (get auth "organizationId");
               setRole (get auth "role");
               setRoles (get auth "roles");
               setPermissions (get auth "permissions");
               setEntitlements (get auth "entitlements");
               setFeatureFlags (get auth "featureFlags");
               setImpersonator (get auth "impersonator");
               setLoading false ];
           completes := Returns VUndefined |}
  | Rejected error =>
      {| before_await := [setLoading true];
         after_await := [setLoading false];
         completes := error_descriptor error |}
  end.

(** Navigation performed by [handleSignOut]. *)
Inductive navigation : Type :=
| AssignHref (url : string)
    (** [window.location.href = url]: a full page navigation *)
| RouterNavigate (to : string).
    (** [navigate({ to })]: an in-place router navigation *)

(** [location.startsWith('http') && !location.includes(window.location.host)] *)
Definition isExternal (host location : string) : bool :=
  startsWith "http" location && negb (includes host location).

(** [handleSignOut], given [window.location.host] and the outcome of
    [await signOut(...)]. *)
Definition handleSignOut (host : string) (action : outcome unit)
  : list navigation * completion :=
  match action with
  | Resolved _ => ([], Returns VUndefined)
  | Rejected error =>
      match error with
      | ThrowResponse (Some location) =>
          if truthy (VStr location) then
            if isExternal host location
            then ([AssignHref location], Returns VUndefined)
            else ([RouterNavigate location], Returns VUndefined)
          else ([], Throws error)
      | _ => ([], Throws error)
      end
  end.

End Provider.

(** ** Session-expiry watcher *)

Module Watcher.

(** The [onSessionExpired] prop. *)
Inductive onSessionExpired_prop : Type :=
| OptOut      (** [false]: the effect returns before registering listeners *)
| Callback    (** a function supplied by the caller *)
| Unset.      (** [undefined] *)

#[global] Instance onSessionExpired_prop_eq_dec : EqDecision onSessionExpired_prop.
Proof. solve_decision. Defined.

(** What one run of the effect does to the outside. *)
Inductive effect : Type :=
| CallCheckSession      (** [checkSessionAction()] is issued *)
| CallOnSessionExpired  (** [onSessionExpired()] *)
| Reload.               (** [window.location.reload()] *)

(** What happens to one run of the effect: a [visibilitychange] or [focus]
    event is dispatched ([visible] is [document.visibilityState === 'visible']
    at that moment), or a pending [checkSessionAction()] promise settles. *)
Inductive event : Type :=
| Dispatched (visible : bool)
| Settled (o : outcome value).

(** The closure state of one run of the effect: the latch, the number of
    [checkSessionAction()] promises issued and not yet settled, and the
    effects so far (oldest first). *)
Record watcher : Type := {
  visibilityChangedCalled : bool;
  in_flight : nat;
  effects : list effect
}.

Definition mounted : watcher :=
  {| visibilityChangedCalled := false; in_flight := 0; effects := [] |}.

(** The error that reaches the [catch] block, if any. *)
Definition caught (o : outcome value) : option thrown :=
  match o with
  | Resolved hasSession =>
      if negb (truthy hasSession) then Some (ThrowError "Session expired")
      else None
  | Rejected e => Some e
  end.

(** The [catch] block. *)
Definition on_catch (p : onSessionExpired_prop) (error : thrown) : list effect :=
  match error with
  | ThrowError message =>
      if includes "Failed to fetch" message then
        match p with
        | Callback => [CallOnSessionExpired]
        | _ => [Reload]
        end
      else []
  | _ => []
  end.

(** [handleVisibilityChange] up to its [await]: a dispatched event returns
    at once while the latch is up or the document is hidden; otherwise it
    raises the latch and issues [checkSessionAction()]. *)
Definition handleVisibilityChange (w : watcher) (visible : bool) : watcher :=
  if visibilityChangedCalled w then w
  else if visible then
    {| visibilityChangedCalled := true;
       in_flight := S (in_flight w);
       effects := effects w ++ [CallCheckSession] |}
  else w.

(** The rest of [handleVisibilityChange], run when the awaited promise
    settles with [o] and [rest] other checks remain in flight: the [try]
    block may throw, the [catch] block reacts, [finally] lowers the latch. *)
Definition handleVisibilityChange_settled (p : onSessionExpired_prop)
    (w : watcher) (rest : nat) (o : outcome value) : watcher :=
  {| visibilityChangedCalled := false;
     in_flight := rest;
     effects := effects w ++
       match caught o with
       | Some error => on_catch p error
       | None => []
       end |}.

(** One event on one run of the effect.  With [OptOut] no listener exists; a
    settlement with nothing in flight cannot occur and changes nothing. *)
Definition step (p : onSessionExpired_prop) (w : watcher) (e : event) : watcher :=
  match p with
  | OptOut => w
  | _ =>
      match e with
      | Dispatched visible => handleVisibilityChange w visible
      | Settled o =>
          match in_flight w with
          | O => w
          | S rest => handleVisibilityChange_settled p w rest o
          end
      end
  end.

(** The watcher after a sequence of events, starting from the mount. *)
Definition run_events (p : onSessionExpired_prop) (es : list event) : watcher :=
  fold_left (step p) es mounted.

(** *** The effect over the life of a mounted provider

    [useEffect(..., [onSessionExpired])]: the effect runs at the mount and
    again whenever a render passes an [onSessionExpired] that is not the
    previous one (a new function identity counts).  Each run executes
    [let visibilityChangedCalled = false] and registers a handler of its own;
    the cleanup of the run before removes that run's listeners, but a
    [checkSessionAction()] it has issued stays pending and its continuation
    still runs, on that run's latch. *)
Record effect_run : Type := {
  run_prop : onSessionExpired_prop;
  run_watcher : watcher
}.

Inductive provider_event : Type :=
| PropChanged (p : onSessionExpired_prop)
    (** a render with a different [onSessionExpired]: cleanup, then a new run *)
| WindowEvent (visible : bool)
    (** [visibilitychange] or [focus]: handled by the listener of the
        current run *)
| CheckSettled (run : nat) (o : outcome value).
    (** a pending check of the run at position [run] settles (0 is the
        current run, 1 the one before, ...) *)

Definition on_run (e : event) (r : effect_run) : effect_run :=
  {| run_prop := run_prop r;
     run_watcher := step (run_prop r) (run_watcher r) e |}.

(** The runs so far, the current one first. *)
Definition provider_step (runs : list effect_run) (e : provider_event)
  : list effect_run :=
  match e with
  | PropChanged p => {| run_prop := p; run_watcher := mounted |} :: runs
  | WindowEvent visible =>
      match runs with
      | [] => []
      | current :: earlier => on_run (Dispatched visible) current :: earlier
      end
  | CheckSettled i o => alter (on_run (Settled o)) i runs
  end.

(** The provider mounted with [p], after a sequence of events. *)
Definition provider_run (p : onSessionExpired_prop) (es : list provider_event)
  : list effect_run :=
  fold_left provider_step es [ {| run_prop := p; run_watcher := mounted |} ].

(** The [checkSessionAction()] calls in flight, over all runs. *)
Fixpoint checks_in_flight (runs : list effect_run) : nat :=
  match runs with
  | [] => 0
  | r :: earlier => in_flight (run_watcher r) + checks_in_flight earlier
  end.

(** The number of [checkSessionAction()] calls among the effects. *)
Fixpoint checks (l : list effect) : nat :=
  match l with
  | [] => 0
  | CallCheckSession :: l' => S (checks l')
  | _ :: l' => checks l'
  end.

(** The latch is up exactly while one check is in flight. *)
Definition latched (w : watcher) : Prop :=
  visibilityChangedCalled w = true ∧ in_flight w = 1 ∨
  visibilityChangedCalled w = false ∧ in_flight w = 0.

(** The number of [onSessionExpired()] calls and reloads among the effects. *)
Fixpoint reactions (l : list effect) : nat :=
  match l with
  | [] => 0
  | CallCheckSession :: l' => reactions l'
  | _ :: l' => S (reactions l')
  end.

End Watcher.

(** ** The statements of the specification under test *)

Module Spec.

(** "[sessionId] is present in the sanitized payload iff [user] is non-null". *)
Definition sessionId_iff_user (payload : gmap string value) : Prop :=
  get payload "sessionId" ≠ VUndefined ↔ get payload "user" ≠ VNull.

(** An auth result carries a session id whenever it carries a user. *)
Definition carries_sessionId (result : gmap string value) : Prop :=
  truthy (get result "user") = true → get result "sessionId" ≠ VUndefined.


(** The preconditions of RefreshAuth: "an existing user, access token, and
    session id from context". *)
Definition refresh_preconditions (auth : gmap string value) : bool :=
  truthy (get auth "user") && truthy (get auth "accessToken")
  && truthy (get auth "sessionId").

(** The trace contains a call of the token-refresh operation. *)
Definition invokes_refresh (calls : list Actions.call) : bool :=
  existsb (λ c, match c with
                | Actions.CallRefreshSession _ _ => true
                | Actions.CallGetSession => false
                end) calls.

(** "replaces all mirrored fields from the sanitized result (fields absent on
    the result are cleared)", with [loading] back to false. *)
Definition mirror (auth : gmap string value) : Provider.auth_state :=
  {| Provider.user := get auth "user";
     Provider.sessionId := get auth "sessionId";
     Provider.organizationId := get auth "organizationId";
     Provider.role := get auth "role";
     Provider.roles := get auth "roles";
     Provider.permissions := get auth "permissions";
     Provider.entitlements := get auth "entitlements";
     Provider.featureFlags := get auth "featureFlags";
     Provider.impersonator := get auth "impersonator";
     Provider.loading := false |}.

(** "clears every mirrored field", with [loading] back to false. *)
Definition cleared : Provider.auth_state :=
  {| Provider.user := VNull;
     Provider.sessionId := VUndefined;
     Provider.organizationId := VUndefined;
     Provider.role := VUndefined;
     Provider.roles := VUndefined;
     Provider.permissions := VUndefined;
     Provider.entitlements := VUndefined;
     Provider.featureFlags := VUndefined;
     Provider.impersonator := VUndefined;
     Provider.loading := false |}.

(** The host of an absolute http(s) URL: what stands between ["://"] and the
    next ['/'], ['?'] or ['#'].  [None] for a destination that is not an
    absolute http(s) URL (a route of the application). *)
Fixpoint until_delimiter (s : string) : string :=
  match s with
  | EmptyString => EmptyString
  | String a s' =>
      if Ascii.eqb a "/"%char || Ascii.eqb a "?"%char || Ascii.eqb a "#"%char
      then EmptyString
      else String a (until_delimiter s')
  end.

Definition destination_host (location : string) : option string :=
  if startsWith "https://" location
  then Some (until_delimiter (String.substring 8 (String.length location) location))
  else if startsWith "http://" location
  then Some (until_delimiter (String.substring 7 (String.length location) location))
  else None.

(** "[SwitchToOrganization]: identical preconditions [as RefreshAuth]; on any
    missing precondition returns [{user: null}]", without a token refresh. *)
Definition switch_short_circuits (w : Actions.world) (organizationId : value)
  : Prop :=
  refresh_preconditions (Actions.getAuthFromContext w) = false →
  snd (Actions.switchToOrganizationAction w organizationId) = Resolved no_user ∧
  invokes_refresh (fst (Actions.switchToOrganizationAction w organizationId))
    = false.

(** "a single in-flight check at a time", over the life of a provider. *)
Definition single_check_in_flight (runs : list Watcher.effect_run) : Prop :=
  Watcher.checks_in_flight runs ≤ 1.

(** "external = different host" *)
Definition external (host location : string) : bool :=
  match destination_host location with
  | Some h => negb (String.eqb h host)
  | None => false
  end.

End Spec.

(** ** Concrete requests *)

Module Examples.
Import Middleware Actions.

Definition mockUser : value :=
  VObj {["id" := VStr "user_123"; "email" := VStr "test@example.com"]}.

(** A resolver result for a signed-in request, with token claims. *)
Definition signed_in : gmap string value :=
  {[ "user" := mockUser;
     "accessToken" := VStr "access_1";
     "sessionId" := VStr "session_123";
     "organizationId" := VStr "org_123";
     "claims" := VObj {["feature_flags" := VArr [VStr "flag_1"]]} ]}.

(** A signed-in context without a session id. *)
Definition signed_in_no_sessionId : gmap string value :=
  {[ "user" := mockUser; "accessToken" := VStr "access_1" ]}.

(** A resolver result for a request without a session. *)
Definition signed_out : gmap string value :=
  {[ "user" := VNull; "accessToken" := VStr "stale" ]}.

(** A stored session with its refresh token. *)
Definition stored_session : value :=
  VObj {["refreshToken" := VStr "refresh_1"]}.

(** A refreshed result scoped to another organization. *)
Definition refreshed : gmap string value :=
  {[ "user" := mockUser;
     "accessToken" := VStr "access_2";
     "sessionId" := VStr "session_456";
     "organizationId" := VStr "org_456";
     "claims" := VObj {["feature_flags" := VArr [VStr "flag_2"]]} ]}.

(** A refreshed result that has a user and no session id. *)
Definition refreshed_no_sessionId : gmap string value :=
  {[ "user" := mockUser; "accessToken" := VStr "access_2" ]}.



(** What the middleware publishes for a request that resolves to
    [authResult]. *)
Definition published (authResult : gmap string value) : channels :=
  {| context_auth := authResult;
     sendContext_auth := hydratedAuth authResult |}.

(** A request whose context holds [authResult], with the stored session
    above and a token refresh that resolves to [result]. *)
Definition request (authResult result : gmap string value) : world :=
  {| auth_in_context := authResult;
     getSession := Resolved stored_session;
     refreshSession := λ _ _, Resolved result |}.

(** The logout URL of the identity provider, returning to the application
    served at [app.example.com]. *)
Definition logout_url : string :=
  "https://api.workos.com/user_management/sessions/logout?session_id=session_123&return_to=https%3A%2F%2Fapp.example.com%2F".

End Examples.

(** ** Properties of the server side *)

Section Server.
Import Middleware Actions.

Lemma get_insert_eq (o : gmap string value) k v : get (<[k := v]> o) k = v.
Proof. unfold get. by rewrite lookup_insert_eq. Qed.

Lemma get_insert_ne (o : gmap string value) k k' v :
  k ≠ k' → get (<[k := v]> o) k' = get o k'.
Proof. intros. unfold get. by rewrite lookup_insert_ne. Qed.

Lemma get_delete_ne (o : gmap string value) k k' :
  k ≠ k' → get (delete k o) k' = get o k'.
Proof. intros. unfold get. by rewrite lookup_delete_ne. Qed.

Lemma get_no_user_user : get no_user "user" = VNull.
Proof. reflexivity. Qed.

Lemma get_no_user_other k : k ≠ "user" → get no_user k = VUndefined.
Proof. intros. unfold get, no_user. by rewrite lookup_singleton_ne. Qed.

Lemma truthy_not_null v : truthy v = true → v ≠ VNull.
Proof. by intros H ->. Qed.

(** The keys of the hydration payload of a signed-in request. *)
Lemma hydratedAuth_user (authResult : gmap string value) :
  truthy (get authResult "user") = true →
  hydratedAuth authResult !! "accessToken" = None ∧
  hydratedAuth authResult !! "claims" = None ∧
  get (hydratedAuth authResult) "user" = get authResult "user" ∧
  get (hydratedAuth authResult) "sessionId" = get authResult "sessionId" ∧
  get (hydratedAuth authResult) "featureFlags"
    = prop (get authResult "claims") "feature_flags".
Proof.
  intros Hu. unfold hydratedAuth. rewrite Hu.
  split_and!.
  - by rewrite !lookup_insert_ne.
  - by rewrite !lookup_insert_ne.
  - apply get_insert_eq.
  - rewrite get_insert_ne by done. apply get_insert_eq.
  - rewrite !(get_insert_ne _ _ "featureFlags") by done. apply get_insert_eq.
Qed.

Lemma hydratedAuth_no_user (authResult : gmap string value) :
  truthy (get authResult "user") = false → hydratedAuth authResult = no_user.
Proof. intros Hu. unfold hydratedAuth. by rewrite Hu. Qed.

(** What [strip] keeps and what it drops. *)
Lemma strip_accessToken result : strip result !! "accessToken" = None.
Proof. unfold strip. by simplify_map_eq. Qed.

Lemma strip_claims result : strip result !! "claims" = None.
Proof. unfold strip. by simplify_map_eq. Qed.


Lemma strip_get result k :
  k ≠ "featureFlags" → k ≠ "accessToken" → k ≠ "claims" →
  get (strip result) k = get result k.
Proof.
  intros. unfold strip.
  rewrite get_insert_ne, !get_delete_ne; done.
Qed.

(** A resolved RefreshAuth is [{ user: null }] or the stripped result of a
    token refresh that has a user. *)
Lemma refreshAuthAction_resolved w options calls payload :
  refreshAuthAction w options = (calls, Resolved payload) →
  payload = no_user ∨
  ∃ arg org result,
    refreshSession w arg org = Resolved result ∧
    truthy (get result "user") = true ∧ payload = strip result.
Proof.
  unfold refreshAuthAction. intros H.
  repeat (case_match; simplify_eq); eauto.
  right. do 3 eexists. split; [eassumption|].
  split; [|done]. by apply negb_false_iff.
Qed.

Lemma switchToOrganizationAction_resolved w organizationId calls payload :
  switchToOrganizationAction w organizationId = (calls, Resolved payload) →
  payload = no_user ∨
  ∃ arg org result,
    refreshSession w arg org = Resolved result ∧
    truthy (get result "user") = true ∧ payload = strip result.
Proof.
  unfold switchToOrganizationAction. intros H.
  repeat (case_match; simplify_eq); eauto.
  right. do 3 eexists. split; [eassumption|].
  split; [|done]. by apply negb_false_iff.
Qed.

(** A resolved run of the middleware publishes the resolver's result on the
    server channel and its hydration payload on the client channel, and
    leaves the latch up. *)
Lemma authkitMiddleware_resolved configValidated validateConfig withAuth latch ch :
  authkitMiddleware configValidated validateConfig withAuth
    = (latch, Resolved ch) →
  latch = true ∧
  ∃ authResult,
    withAuth = Resolved authResult ∧
    context_auth ch = authResult ∧
    sendContext_auth ch = hydratedAuth authResult.
Proof.
  unfold authkitMiddleware. intros H.
  repeat (case_match; simplify_eq); eauto.
Qed.

End Server.

(** Case analysis on the payload [H] says an action resolved to. *)
Ltac resolved_payload H :=
  first [ apply refreshAuthAction_resolved in H
        | apply switchToOrganizationAction_resolved in H ];
  destruct H as [->|(?arg & ?org & ?result & ?Hrefreshed & ?Huser & ->)].

Section ServerClaims.
Import Middleware Actions Examples.

(** C1.  Every sanitized payload produced for the client -- the middleware
    hydration payload and the results of getAuthAction, refreshAuthAction and
    switchToOrganizationAction -- has no [accessToken] field, whatever the
    resolved auth result, the context and the refreshed result contain. *)
Theorem sanitized_payload_has_no_accessToken
    (authResult : gmap string value) (w : world) (options organizationId : value) :
  hydratedAuth authResult !! "accessToken" = None ∧
  getAuthAction w !! "accessToken" = None ∧
  match snd (refreshAuthAction w options) with
  | Resolved payload => payload !! "accessToken" = None
  | Rejected _ => True
  end ∧
  match snd (switchToOrganizationAction w organizationId) with
  | Resolved payload => payload !! "accessToken" = None
  | Rejected _ => True
  end.
Proof.
  split_and!.
  - destruct (truthy (get authResult "user")) eqn:Hu.
    + by apply hydratedAuth_user.
    + by rewrite hydratedAuth_no_user.
  - unfold getAuthAction. case_match; [done|]. apply lookup_delete_eq.
  - destruct (refreshAuthAction w options) as [calls [payload|e]] eqn:H; [|done].
    resolved_payload H; [done|apply strip_accessToken].
  - destruct (switchToOrganizationAction w organizationId)
      as [calls [payload|e]] eqn:H; [|done].
    resolved_payload H; [done|apply strip_accessToken].
Qed.

(** C2.  When the resolver returns a null user, the hydration payload built by
    the middleware is exactly [{user: null}]: [user] is its only key. *)
Theorem null_user_hydrates_to_no_user (authResult : gmap string value) :
  get authResult "user" = VNull →
  hydratedAuth authResult = {["user" := VNull]} ∧
  dom (hydratedAuth authResult) = {["user"]}.
Proof.
  intros Hu. rewrite hydratedAuth_no_user by by rewrite Hu.
  split; [done|]. unfold no_user. by rewrite dom_singleton_L.
Qed.

(** The claim at a signed-out resolver result that still carries a token. *)
Lemma null_user_hydrates_to_no_user_witness :
  get signed_out "user" = VNull ∧
  hydratedAuth signed_out = {["user" := VNull]} ∧
  dom (hydratedAuth signed_out) = {["user"]}.
Proof.
  split; [reflexivity|].
  apply (null_user_hydrates_to_no_user signed_out). reflexivity.
Defined.

Lemma sessionId_iff_user_no_user : Spec.sessionId_iff_user no_user.
Proof. split; intros H; by destruct H. Qed.

Lemma sessionId_iff_user_strip result :
  truthy (get result "user") = true → Spec.carries_sessionId result →
  Spec.sessionId_iff_user (strip result).
Proof.
  intros Hu Hs. unfold Spec.sessionId_iff_user.
  rewrite !strip_get by done.
  split; intros _; [by apply truthy_not_null | by apply Hs].
Qed.

(** On every path a payload with a defined session id has a user. *)
Lemma defined_sessionId_has_user
    (authResult : gmap string value) (w : world) (options organizationId : value) :
  (get (hydratedAuth authResult) "sessionId" ≠ VUndefined →
   get (hydratedAuth authResult) "user" ≠ VNull) ∧
  match snd (refreshAuthAction w options) with
  | Resolved payload =>
      get payload "sessionId" ≠ VUndefined → get payload "user" ≠ VNull
  | Rejected _ => True
  end ∧
  match snd (switchToOrganizationAction w organizationId) with
  | Resolved payload =>
      get payload "sessionId" ≠ VUndefined → get payload "user" ≠ VNull
  | Rejected _ => True
  end.
Proof.
  split_and!.
  - destruct (truthy (get authResult "user")) eqn:Hu.
    + destruct (hydratedAuth_user authResult Hu) as (_ & _ & -> & _).
      intros _. by apply truthy_not_null.
    + rewrite hydratedAuth_no_user by done. intros H. by destruct H.
  - destruct (refreshAuthAction w options) as [calls [payload|e]] eqn:H; [|done].
    resolved_payload H.
    + intros H. by destruct H.
    + intros _. rewrite strip_get by done. by apply truthy_not_null.
  - destruct (switchToOrganizationAction w organizationId)
      as [calls [payload|e]] eqn:H; [|done].
    resolved_payload H.
    + intros H. by destruct H.
    + intros _. rewrite strip_get by done. by apply truthy_not_null.
Qed.

(** C3, as stated, fails: a token refresh that resolves to a result with a
    user and no session id yields a RefreshAuth payload with a non-null user
    and an undefined [sessionId]. *)
Lemma sessionId_iff_user_counterexample :
  snd (refreshAuthAction (request signed_in refreshed_no_sessionId) VUndefined)
    = Resolved (strip refreshed_no_sessionId) ∧
  get (strip refreshed_no_sessionId) "user" = mockUser ∧
  get (strip refreshed_no_sessionId) "sessionId" = VUndefined ∧
  ¬ Spec.sessionId_iff_user (strip refreshed_no_sessionId).
Proof.
  split_and!.
  - vm_compute. reflexivity.
  - vm_compute. reflexivity.
  - vm_compute. reflexivity.
  - intros [_ H]. apply H; [vm_compute; discriminate | vm_compute; reflexivity].
Qed.

(** C3, amended.  The middleware, RefreshAuth and SwitchToOrganization copy
    [sessionId] unchecked from the auth result they sanitize (the resolver's
    result, the refreshed result).  Provided that result carries a session id
    whenever it carries a user, the payload has a defined [sessionId] if and
    only if its [user] is non-null. *)
Theorem sessionId_iff_user_when_carried
    (authResult : gmap string value) (w : world) (options organizationId : value) :
  Spec.carries_sessionId authResult →
  (∀ arg org result,
     refreshSession w arg org = Resolved result → Spec.carries_sessionId result) →
  Spec.sessionId_iff_user (hydratedAuth authResult) ∧
  match snd (refreshAuthAction w options) with
  | Resolved payload => Spec.sessionId_iff_user payload
  | Rejected _ => True
  end ∧
  match snd (switchToOrganizationAction w organizationId) with
  | Resolved payload => Spec.sessionId_iff_user payload
  | Rejected _ => True
  end.
Proof.
  intros Hres Href. split_and!.
  - destruct (truthy (get authResult "user")) eqn:Hu.
    + unfold Spec.sessionId_iff_user.
      destruct (hydratedAuth_user authResult Hu) as (_ & _ & -> & -> & _).
      split; intros _; [by apply truthy_not_null | by apply Hres].
    + rewrite hydratedAuth_no_user by done. apply sessionId_iff_user_no_user.
  - destruct (refreshAuthAction w options) as [calls [payload|e]] eqn:H; [|done].
    resolved_payload H.
    + apply sessionId_iff_user_no_user.
    + apply sessionId_iff_user_strip; [done|]. by eapply Href.
  - destruct (switchToOrganizationAction w organizationId)
      as [calls [payload|e]] eqn:H; [|done].
    resolved_payload H.
    + apply sessionId_iff_user_no_user.
    + apply sessionId_iff_user_strip; [done|]. by eapply Href.
Qed.

(** The amended claim at a signed-in request whose refresh carries a session
    id. *)
Lemma sessionId_iff_user_when_carried_witness :
  Spec.sessionId_iff_user (hydratedAuth signed_in) ∧
  Spec.sessionId_iff_user (strip refreshed).
Proof.
  assert (Hs : Spec.carries_sessionId signed_in)
    by (intros _; vm_compute; discriminate).
  assert (Hr : ∀ arg org result,
             refreshSession (request signed_in refreshed) arg org = Resolved result →
             Spec.carries_sessionId result).
  { intros arg org result H. simpl in H. injection H as <-.
    intros _. vm_compute. discriminate. }
  destruct (sessionId_iff_user_when_carried signed_in
              (request signed_in refreshed) VUndefined (VStr "org_456") Hs Hr)
    as (Hm & _ & Hsw).
  split; [exact Hm|exact Hsw].
Defined.

(** C4, as stated, fails: with a user and an access token but no session id
    in the context, RefreshAuth returns [{user: null}] without any call, while
    SwitchToOrganization goes on to refresh the token. *)
Lemma switch_short_circuits_counterexample :
  refreshAuthAction (request signed_in_no_sessionId refreshed) VUndefined
    = ([], Resolved no_user) ∧
  ¬ Spec.switch_short_circuits (request signed_in_no_sessionId refreshed)
      (VStr "org_456").
Proof.
  split; [vm_compute; reflexivity|].
  intros H. destruct H as [_ H]; [vm_compute; reflexivity|].
  vm_compute in H. discriminate.
Qed.

(** C4, amended.  SwitchToOrganization requires a user and an access token
    from the context, not a session id: when either is missing it returns
    [{user: null}] without any call; when the stored session or its refresh
    token is missing it returns [{user: null}] without a token refresh; when
    all of these are present it calls [getSession] and then the token
    refresh, with the context's access token, user and impersonator, the
    stored refresh token and the organization id it was given, whether or not
    the context has a session id, and returns the sanitized result of that
    refresh ([{user: null}] when it has no user) or rejects with its error.
    When the context has a session id it behaves exactly as RefreshAuth
    called with that organization id. *)
Theorem switchToOrganization_preconditions (w : world) (organizationId : value) :
  let auth := getAuthFromContext w in
  (truthy (get auth "user") && truthy (get auth "accessToken") = false →
   switchToOrganizationAction w organizationId = ([], Resolved no_user)) ∧
  (∀ session,
     getSession w = Resolved session →
     truthy session && truthy (prop session "refreshToken") = false →
     snd (switchToOrganizationAction w organizationId) = Resolved no_user ∧
     Spec.invokes_refresh (fst (switchToOrganizationAction w organizationId))
       = false) ∧
  (truthy (get auth "user") && truthy (get auth "accessToken") = true →
   ∀ session,
     getSession w = Resolved session →
     truthy session && truthy (prop session "refreshToken") = true →
     ∃ arg,
       get arg "accessToken" = get auth "accessToken" ∧
       get arg "refreshToken" = prop session "refreshToken" ∧
       get arg "user" = get auth "user" ∧
       get arg "impersonator" = get auth "impersonator" ∧
       fst (switchToOrganizationAction w organizationId)
         = [CallGetSession; CallRefreshSession arg organizationId] ∧
       snd (switchToOrganizationAction w organizationId)
         = match refreshSession w arg organizationId with
           | Resolved result =>
               Resolved (if truthy (get result "user")
                         then strip result else no_user)
           | Rejected e => Rejected e
           end) ∧
  (truthy (get auth "sessionId") = true →
   switchToOrganizationAction w organizationId
     = refreshAuthAction w (VObj {["organizationId" := organizationId]})).
Proof.
  intros auth. subst auth. unfold switchToOrganizationAction, refreshAuthAction.
  split_and!.
  - intros H. apply andb_false_iff in H as [->| ->]; [done|].
    by rewrite orb_true_r.
  - intros session -> H.
    destruct (negb (truthy (get (getAuthFromContext w) "user"))
              || negb (truthy (get (getAuthFromContext w) "accessToken")));
      [done|].
    apply andb_false_iff in H as [->| ->]; [done|].
    by rewrite orb_true_r.
  - intros H session -> Hs.
    apply andb_true_iff in H as [-> ->].
    apply andb_true_iff in Hs as [-> ->]. simpl.
    exists (session_arg (getAuthFromContext w) session).
    split_and!.
    + apply get_insert_eq.
    + unfold session_arg. rewrite get_insert_ne by done. apply get_insert_eq.
    + unfold session_arg. rewrite !(get_insert_ne _ _ "user") by done.
      apply get_insert_eq.
    + unfold session_arg. rewrite !(get_insert_ne _ _ "impersonator") by done.
      apply get_insert_eq.
    + by repeat case_match.
    + destruct (refreshSession w (session_arg (getAuthFromContext w) session)
                  organizationId) as [result|e]; [|done].
      by destruct (truthy (get result "user")).
  - intros ->. simpl. rewrite orb_false_r.
    assert (get {["organizationId" := organizationId]} "organizationId"
            = organizationId) as -> by apply get_insert_eq.
    done.
Qed.

(** The amended claim at a signed-out context and at a signed-in context
    without a session id. *)
Lemma switchToOrganization_preconditions_witness :
  switchToOrganizationAction (request signed_out refreshed) (VStr "org_456")
    = ([], Resolved no_user) ∧
  ∃ arg,
    get arg "accessToken" = VStr "access_1" ∧
    get arg "refreshToken" = VStr "refresh_1" ∧
    fst (switchToOrganizationAction (request signed_in_no_sessionId refreshed)
           (VStr "org_456"))
      = [CallGetSession; CallRefreshSession arg (VStr "org_456")] ∧
    snd (switchToOrganizationAction (request signed_in_no_sessionId refreshed)
           (VStr "org_456"))
      = Resolved (strip refreshed).
Proof.
  destruct (switchToOrganization_preconditions (request signed_out refreshed)
              (VStr "org_456")) as (Hmissing & _).
  destruct (switchToOrganization_preconditions
              (request signed_in_no_sessionId refreshed) (VStr "org_456"))
    as (_ & _ & Hrefresh & _).
  split.
  - apply Hmissing. vm_compute. reflexivity.
  - destruct (Hrefresh ltac:(vm_compute; reflexivity) stored_session
                eq_refl ltac:(vm_compute; reflexivity))
      as (arg & Ht & Hr & _ & _ & Hcalls & Hresult).
    exists arg. split_and!; [exact Ht|exact Hr|exact Hcalls|exact Hresult].
Defined.




End ServerClaims.

(** ** Properties of the client provider *)

Section ClientClaims.
Import Actions Provider Examples.

Lemma has_get k (o : gmap string value) :
  (if has k o then get o k else VUndefined) = get o k.
Proof.
  unfold has, get. case_bool_decide as H; [done|].
  destruct (o !! k) eqn:E; [|done]. exfalso. apply H. eauto.
Qed.

(** The state after a resolved [refreshAuth], for any result object. *)
Lemma refreshAuth_resolved (st : auth_state) (auth : gmap string value) :
  final_state st (refreshAuth (Resolved auth)) =
  {| user := get auth "user";
     sessionId := if truthy (get auth "user")
                  then get auth "sessionId" else VUndefined;
     organizationId := get auth "organizationId";
     role := get auth "role";
     roles := get auth "roles";
     permissions := get auth "permissions";
     entitlements := get auth "entitlements";
     featureFlags := get auth "featureFlags";
     impersonator := get auth "impersonator";
     loading := false |}.
Proof.
  unfold final_state, pending_state, commit. simpl.
  by rewrite !has_get.
Qed.





(** C7.  Every [handleSwitchToOrganization] sets [loading] before it awaits
    SwitchToOrganization and has it false when it completes.  The mirrored
    fields change in the one commit that follows the await: when the result
    has no user all nine are cleared, otherwise all nine are overwritten from
    the result; when the action rejects none of them changes. *)
Theorem switchToOrganization_clears_or_overwrites
    (st : auth_state) (action : outcome (gmap string value)) :
  let r := handleSwitchToOrganization action in
  pending_state st r = apply_setter st (setLoading true) ∧
  loading (final_state st r) = false ∧
  match action with
  | Resolved auth =>
      completes r = Returns VUndefined ∧
      final_state st r
        = if truthy (get auth "user") then Spec.mirror auth else Spec.cleared
  | Rejected error =>
      completes r = error_descriptor error ∧
      final_state st r = apply_setter st (setLoading false)
  end.
Proof.
  intros r. subst r. destruct action as [auth|error]; simpl.
  - by destruct (truthy (get auth "user")).
  - done.
Qed.

(** C8, on the logout URL of the identity provider with a return address in
    the application: its host is not the page's host, yet [handleSignOut]
    takes it for an internal route and hands it to the router. *)
Lemma signOut_misclassifies_logout_url :
  Spec.destination_host logout_url = Some "api.workos.com" ∧
  Spec.external "app.example.com" logout_url = true ∧
  isExternal "app.example.com" logout_url = false ∧
  handleSignOut "app.example.com" (Rejected (ThrowResponse (Some logout_url)))
    = ([RouterNavigate logout_url], Returns VUndefined).
Proof. split_and!; vm_compute; reflexivity. Qed.

(** What [handleSignOut] does with a redirect that carries a location. *)
Lemma handleSignOut_redirect (host location : string) :
  location ≠ "" →
  handleSignOut host (Rejected (ThrowResponse (Some location)))
  = if startsWith "http" location && negb (includes host location)
    then ([AssignHref location], Returns VUndefined)
    else ([RouterNavigate location], Returns VUndefined).
Proof.
  intros H. unfold handleSignOut, isExternal. simpl.
  destruct (String.eqb_spec location ""); [done|]. simpl.
  by case_match.
Qed.

(** Any error that is not a redirect with a location is thrown again. *)
Lemma handleSignOut_rethrows (host : string) (error : thrown) :
  (∀ location, location ≠ "" → error ≠ ThrowResponse (Some location)) →
  handleSignOut host (Rejected error) = ([], Throws error).
Proof.
  intros H. destruct error as [m|[location|]|v]; try done.
  unfold handleSignOut. simpl.
  destruct (String.eqb_spec location ""); [done|].
  by destruct (H location).
Qed.

End ClientClaims.

(** ** Properties of the session-expiry watcher *)

Section WatcherClaims.
Import Watcher.

Ltac run_handler :=
  unfold step, handleVisibilityChange, handleVisibilityChange_settled.

Lemma latched_mounted : latched mounted.
Proof. by right. Qed.

Lemma latched_handleVisibilityChange w visible :
  latched w → latched (handleVisibilityChange w visible).
Proof.
  intros [[Hf Hn]|[Hf Hn]]; run_handler; rewrite Hf.
  - by left.
  - destruct visible; [left; simpl; by rewrite Hn | by right].
Qed.

Lemma latched_step p w e : latched w → latched (step p w e).
Proof.
  intros Hw. destruct p; [done| |];
    (destruct e as [visible|o];
     [ by apply latched_handleVisibilityChange
     | unfold step; destruct Hw as [[Hf Hn]|[Hf Hn]]; rewrite Hn;
       [by right | by right] ]).
Qed.

Lemma latched_fold p es w : latched w → latched (fold_left (step p) es w).
Proof.
  revert w. induction es as [|e es IH]; intros w Hw; [done|].
  simpl. apply IH. by apply latched_step.
Qed.

Lemma latched_run p es : latched (run_events p es).
Proof. apply latched_fold, latched_mounted. Qed.

(** With the watcher switched off no event reaches a handler. *)
Lemma run_events_OptOut es : run_events OptOut es = mounted.
Proof. unfold run_events. generalize mounted. by induction es. Qed.

(** A dispatched event issues a check exactly when the latch is down and the
    document is visible. *)
Lemma handleVisibilityChange_checks w visible :
  checks (effects (handleVisibilityChange w visible))
  = checks (effects w)
    + (if negb (visibilityChangedCalled w) && visible then 1 else 0).
Proof.
  run_handler. destruct (visibilityChangedCalled w), visible; simpl; try lia.
  induction (effects w) as [|[] l IH]; simpl; lia.
Qed.

(** C9, amended.  After any sequence of events on one run of the watcher
    effect (the effect as run for one value of [onSessionExpired]) at
    most one [checkSessionAction()] of that run is in flight.  While one is in flight a
    dispatched event changes nothing: no call is issued and nothing is kept
    for later.  When the check settles, on any path, the latch is down and
    nothing is in flight. *)
Theorem at_most_one_check_in_flight (p : onSessionExpired_prop) (es : list event) :
  let w := run_events p es in
  in_flight w ≤ 1 ∧
  (∀ visible, in_flight w = 1 → step p w (Dispatched visible) = w) ∧
  (∀ o, visibilityChangedCalled (step p w (Settled o)) = false ∧
        in_flight (step p w (Settled o)) = 0).
Proof.
  intros w. pose proof (latched_run p es) as Hw. fold w in Hw.
  destruct (decide (p = OptOut)) as [->|Hp].
  { subst w. rewrite run_events_OptOut. simpl. split_and!; [lia|done|done]. }
  clearbody w. split_and!.
  - destruct Hw as [[_ ->]|[_ ->]]; lia.
  - intros visible Hn. destruct Hw as [[Hf _]|[_ Hz]]; [|congruence].
    run_handler. rewrite Hf. by destruct p.
  - intros o. run_handler.
    destruct Hw as [[Hf Hn]|[Hf Hn]]; destruct p;
      rewrite ?Hn; simpl; rewrite ?Hf, ?Hn; done.
Qed.

(** Two events in a row while the first check is pending: one call. *)
Lemma at_most_one_check_in_flight_witness :
  step Unset (run_events Unset [Dispatched true]) (Dispatched true)
  = run_events Unset [Dispatched true].
Proof.
  apply (at_most_one_check_in_flight Unset [Dispatched true]). reflexivity.
Defined.

(** Each run of the effect keeps its own latch, also over the life of a
    provider. *)
Lemma every_run_latched p es :
  Forall (λ r, latched (run_watcher r)) (provider_run p es).
Proof.
  unfold provider_run.
  assert (H0 : Forall (λ r, latched (run_watcher r))
                 [ {| run_prop := p; run_watcher := mounted |} ])
    by (repeat constructor; apply latched_mounted).
  revert H0. generalize [ {| run_prop := p; run_watcher := mounted |} ].
  induction es as [|e es IH]; intros runs Hruns; [done|].
  simpl. apply IH. destruct e as [q|visible|i o]; simpl.
  - constructor; [apply latched_mounted|done].
  - destruct runs as [|current earlier]; [done|].
    apply Forall_cons in Hruns as [Hc He].
    constructor; [by apply latched_step|done].
  - apply Forall_alter; [done|]. intros r _ Hr. by apply latched_step.
Qed.

(** C9, as stated, fails: the latch is a local of the effect body, and the
    effect runs again when [onSessionExpired] changes.  A provider mounted
    with a callback gets a visible event (a check is issued), is rendered
    with a new callback while that check is pending, and gets another visible
    event: the new run issues a second check, and two are in flight. *)
Lemma single_check_in_flight_counterexample :
  checks_in_flight
    (provider_run Callback [WindowEvent true; PropChanged Callback])
    = 1 ∧
  checks_in_flight
    (provider_run Callback
       [WindowEvent true; PropChanged Callback; WindowEvent true])
    = 2 ∧
  ¬ Spec.single_check_in_flight
      (provider_run Callback
         [WindowEvent true; PropChanged Callback; WindowEvent true]).
Proof.
  split_and!; [reflexivity|reflexivity|].
  unfold Spec.single_check_in_flight. simpl. lia.
Qed.

(** A transport failure does reach the callback or the reload. *)
Lemma failed_to_fetch_fires :
  on_catch Callback (ThrowError "TypeError: Failed to fetch")
    = [CallOnSessionExpired] ∧
  on_catch Unset (ThrowError "Failed to fetch") = [Reload].
Proof. split; reflexivity. Qed.

(** C10.  When [checkSessionAction()] resolves to false the handler throws
    ['Session expired'] into its own [catch] block, whose test for
    ['Failed to fetch'] fails on that message: neither [onSessionExpired] nor
    a reload follows. *)
Theorem expired_session_triggers_nothing (p : onSessionExpired_prop) (w : watcher) :
  caught (Resolved (VBool false)) = Some (ThrowError "Session expired") ∧
  on_catch p (ThrowError "Session expired") = [] ∧
  effects (step p w (Settled (Resolved (VBool false)))) = effects w.
Proof.
  split_and!; [done|done|].
  run_handler. destruct p; [done| |]; destruct (in_flight w); simpl;
    by rewrite ?app_nil_r.
Qed.

End WatcherClaims.

(** ** Further properties of the server actions and the middleware *)

Section ServerExtras.
Import Middleware Actions Examples.

(** X1.  When checkSessionAction reports no session (the context's user is
    null), every other action degrades without touching the session
    service: getAuthAction, refreshAuthAction and switchToOrganizationAction
    give [{user: null}], getAccessTokenAction and refreshAccessTokenAction
    give [undefined]. *)
Theorem no_session_degrades_every_action
    (w : world) (options organizationId : value) :
  checkSessionAction w = false →
  getAuthAction w = no_user ∧
  getAccessTokenAction w = VUndefined ∧
  refreshAuthAction w options = ([], Resolved no_user) ∧
  refreshAccessTokenAction w = ([], Resolved VUndefined) ∧
  switchToOrganizationAction w organizationId = ([], Resolved no_user).
Proof.
  unfold checkSessionAction, getAuthAction, getAccessTokenAction,
    refreshAuthAction, refreshAccessTokenAction, switchToOrganizationAction.
  destruct (get (getAuthFromContext w) "user"); by intros.
Qed.

(** The property at a request whose resolver found no session. *)
Lemma no_session_degrades_every_action_witness :
  refreshAuthAction (request signed_out refreshed) VUndefined
    = ([], Resolved no_user) ∧
  refreshAccessTokenAction (request signed_out refreshed)
    = ([], Resolved VUndefined).
Proof.
  destruct (no_session_degrades_every_action (request signed_out refreshed)
              VUndefined VUndefined) as (_ & _ & Hr & Ht & _).
  - vm_compute. reflexivity.
  - split; [exact Hr|exact Ht].
Defined.

(** X2.  For a signed-in context that has an access token, getAuthAction
    and getAccessTokenAction split the context's auth result without loss:
    putting the token back into the client view gives the auth result. *)
Theorem accessToken_round_trip (w : world) (token : value) :
  truthy (get (getAuthFromContext w) "user") = true →
  getAuthFromContext w !! "accessToken" = Some token →
  getAccessTokenAction w = token ∧
  <["accessToken" := getAccessTokenAction w]> (getAuthAction w)
    = getAuthFromContext w.
Proof.
  intros Hu Ht. unfold getAccessTokenAction, getAuthAction. rewrite Hu. simpl.
  assert (get (getAuthFromContext w) "accessToken" = token) as ->
    by (unfold get; by rewrite Ht).
  split; [done|]. rewrite insert_delete_eq. by apply insert_id.
Qed.

(** The property at the signed-in request. *)
Lemma accessToken_round_trip_witness :
  <["accessToken" := getAccessTokenAction (request signed_in refreshed)]>
    (getAuthAction (request signed_in refreshed)) = signed_in.
Proof.
  apply (accessToken_round_trip (request signed_in refreshed) (VStr "access_1"));
    vm_compute; reflexivity.
Defined.

(** X3.  The token refresh is invoked exactly when the context has a truthy
    user and access token (and, for refreshAuthAction only, a truthy session
    id) and the stored session resolves to a truthy value with a truthy
    refresh token.  An empty string counts as missing. *)
Theorem refresh_invoked_exactly_when
    (w : world) (options organizationId : value) :
  let auth := getAuthFromContext w in
  let credentials :=
    truthy (get auth "user") && truthy (get auth "accessToken") in
  Spec.invokes_refresh (fst (refreshAuthAction w options))
    = credentials && truthy (get auth "sessionId")
      && session_usable (getSession w) ∧
  Spec.invokes_refresh (fst (refreshAccessTokenAction w))
    = credentials && session_usable (getSession w) ∧
  Spec.invokes_refresh (fst (switchToOrganizationAction w organizationId))
    = credentials && session_usable (getSession w).
Proof.
  intros auth credentials. subst auth credentials.
  unfold refreshAuthAction, refreshAccessTokenAction,
    switchToOrganizationAction, session_usable.
  destruct (truthy (get (getAuthFromContext w) "user")),
    (truthy (get (getAuthFromContext w) "accessToken")),
    (truthy (get (getAuthFromContext w) "sessionId")),
    (getSession w) as [session|e]; simpl; try done;
    destruct (truthy session), (truthy (prop session "refreshToken"));
    simpl; try done;
    split_and!; repeat case_match; done.
Qed.

Lemma session_arg_credentialed auth session :
  truthy (get auth "user") = true →
  truthy (get auth "accessToken") = true →
  truthy (prop session "refreshToken") = true →
  ∀ org, credentialed auth (Resolved session)
           (CallRefreshSession (session_arg auth session) org).
Proof.
  intros Hu Ht Hr org. unfold credentialed, session_arg.
  rewrite get_insert_eq.
  rewrite !(get_insert_ne _ "accessToken") by done.
  rewrite get_insert_eq.
  rewrite !(get_insert_ne _ "refreshToken") by done.
  rewrite get_insert_eq.
  rewrite !(get_insert_ne _ "user") by done.
  rewrite get_insert_eq.
  split_and!; try done; try (by exists session);
    rewrite !dom_insert_L, dom_empty_L; set_solver.
Qed.

(** X4.  Whenever an action calls the token refresh, the session it passes
    has exactly the fields [accessToken], [refreshToken], [user] and
    [impersonator]: the context's access token, user and impersonator and the
    refresh token of the session [getSession] resolved to; access token,
    refresh token and user are never missing. *)
Theorem refresh_calls_carry_credentials
    (w : world) (options organizationId : value) :
  Forall (credentialed (getAuthFromContext w) (getSession w))
    (fst (refreshAuthAction w options)) ∧
  Forall (credentialed (getAuthFromContext w) (getSession w))
    (fst (refreshAccessTokenAction w)) ∧
  Forall (credentialed (getAuthFromContext w) (getSession w))
    (fst (switchToOrganizationAction w organizationId)).
Proof.
  unfold refreshAuthAction, refreshAccessTokenAction, switchToOrganizationAction.
  destruct (truthy (get (getAuthFromContext w) "user")) eqn:Hu,
    (truthy (get (getAuthFromContext w) "accessToken")) eqn:Ht,
    (truthy (get (getAuthFromContext w) "sessionId")),
    (getSession w) as [session|e]; simpl;
    try (split_and!; repeat constructor; done);
    destruct (truthy session), (truthy (prop session "refreshToken")) eqn:Hr;
    simpl; try (split_and!; repeat constructor; done);
    split_and!; repeat case_match; simpl;
    repeat constructor; by apply session_arg_credentialed.
Qed.

(** X5.  Each refresh-style action calls the session service in a fixed
    order: nothing, or [getSession] alone, or [getSession] followed by one
    token refresh; the organization passed to the refresh is
    [options?.organizationId] for refreshAuthAction, none for
    refreshAccessTokenAction and [data.organizationId] for
    switchToOrganizationAction. *)
Theorem service_calls_in_order (w : world) (options organizationId : value) :
  let shape (calls : list call) (org : value) :=
    calls = [] ∨ calls = [CallGetSession] ∨
    ∃ session,
      getSession w = Resolved session ∧
      calls = [CallGetSession;
               CallRefreshSession (session_arg (getAuthFromContext w) session) org] in
  shape (fst (refreshAuthAction w options)) (prop options "organizationId") ∧
  shape (fst (refreshAccessTokenAction w)) VUndefined ∧
  shape (fst (switchToOrganizationAction w organizationId)) organizationId.
Proof.
  intros shape. subst shape. cbv beta.
  unfold refreshAuthAction, refreshAccessTokenAction, switchToOrganizationAction.
  split_and!; repeat (case_match; simpl); eauto.
Qed.

(** X6.  A refresh-style action rejects only with an error of the session
    service: the error [getSession] rejected with, or the error a token
    refresh rejected with.  Missing preconditions never reject. *)
Theorem actions_reject_only_with_service_errors
    (w : world) (options organizationId : value) :
  let from_service (e : thrown) :=
    getSession w = Rejected e ∨
    ∃ session org, refreshSession w session org = Rejected e in
  match snd (refreshAuthAction w options) with
  | Rejected e => from_service e
  | Resolved _ => True
  end ∧
  match snd (refreshAccessTokenAction w) with
  | Rejected e => from_service e
  | Resolved _ => True
  end ∧
  match snd (switchToOrganizationAction w organizationId) with
  | Rejected e => from_service e
  | Resolved _ => True
  end.
Proof.
  intros from_service. subst from_service. cbv beta.
  unfold refreshAuthAction, refreshAccessTokenAction, switchToOrganizationAction.
  split_and!; repeat (case_match; simplify_eq/=); eauto 6.
Qed.

(** X7.  With a session id in the context, refreshAccessTokenAction makes
    the same service calls as refreshAuthAction without an organization and
    rejects with the same error.  When both resolve, either no refresh was
    called (the token is [undefined], the payload [{user: null}]), or the
    token is the [accessToken] of the very result refreshAuthAction
    sanitizes -- returned also when that result has no user. *)
Theorem refreshAccessToken_follows_refreshAuth (w : world) :
  truthy (get (getAuthFromContext w) "sessionId") = true →
  fst (refreshAccessTokenAction w) = fst (refreshAuthAction w VUndefined) ∧
  match snd (refreshAccessTokenAction w), snd (refreshAuthAction w VUndefined) with
  | Resolved token, Resolved payload =>
      Spec.invokes_refresh (fst (refreshAccessTokenAction w)) = false ∧
      token = VUndefined ∧ payload = no_user ∨
      ∃ session result,
        refreshSession w session VUndefined = Resolved result ∧
        token = get result "accessToken" ∧
        payload = if truthy (get result "user") then strip result else no_user
  | Rejected e, Rejected e' => e = e'
  | _, _ => False
  end.
Proof.
  intros Hs. unfold refreshAccessTokenAction, refreshAuthAction.
  rewrite Hs. simpl. rewrite orb_false_r.
  destruct (negb (truthy (get (getAuthFromContext w) "user"))
            || negb (truthy (get (getAuthFromContext w) "accessToken")));
    simpl; [by eauto|].
  destruct (getSession w) as [session|e]; simpl; [|done].
  destruct (negb (truthy session) || negb (truthy (prop session "refreshToken")));
    simpl; [by eauto|].
  destruct (refreshSession w (session_arg (getAuthFromContext w) session)
              VUndefined) as [result|e] eqn:Hr; simpl.
  - assert (∀ calls : list call,
              (if negb (truthy (get result "user"))
               then (calls, Resolved no_user)
               else (calls, Resolved (strip result))) =
              (calls, Resolved (if truthy (get result "user")
                                then strip result else no_user))) as ->
      by (intros; by destruct (truthy (get result "user"))).
    simpl. split; [done|]. right.
    by exists (session_arg (getAuthFromContext w) session), result.
  - done.
Qed.

(** The property at the signed-in request. *)
Lemma refreshAccessToken_follows_refreshAuth_witness :
  fst (refreshAccessTokenAction (request signed_in refreshed))
  = fst (refreshAuthAction (request signed_in refreshed) VUndefined).
Proof.
  apply (refreshAccessToken_follows_refreshAuth (request signed_in refreshed)).
  vm_compute. reflexivity.
Defined.

(** X8.  The hydration payload of a signed-in request has exactly the nine
    keys the middleware writes, and that of a signed-out request the key
    [user] alone: no other field of the resolver's result (an access token,
    a refresh token, the raw claims) becomes a key of the payload. *)
Theorem hydratedAuth_keys (authResult : gmap string value) :
  dom (hydratedAuth authResult)
  = if truthy (get authResult "user") then hydrated_keys else {["user"]}.
Proof.
  unfold hydratedAuth, hydrated_keys, no_user.
  destruct (truthy (get authResult "user")).
  - rewrite !dom_insert_L, dom_empty_L. set_solver.
  - by rewrite dom_singleton_L.
Qed.

(** X9.  The payload of a successful refreshAuthAction or
    switchToOrganizationAction is made from the one result of the one token
    refresh the action called: when that result has a user the payload has no
    [accessToken] and no [claims], has the claims' [feature_flags] as
    [featureFlags], and has under every other property name exactly what the
    result has there, present or absent; when it has no user the payload is
    [{user: null}], as it is when no refresh was called. *)
Theorem refreshed_fields_pass_through
    (w : world) (options organizationId : value) :
  let passes (served : list call * outcome (gmap string value)) :=
    match served with
    | (calls, Resolved payload) =>
        Spec.invokes_refresh calls = false ∧ payload = no_user ∨
        ∃ session org result,
          calls = [CallGetSession; CallRefreshSession session org] ∧
          refreshSession w session org = Resolved result ∧
          if truthy (get result "user") then
            payload !! "accessToken" = None ∧
            payload !! "claims" = None ∧
            payload !! "featureFlags"
              = Some (prop (get result "claims") "feature_flags") ∧
            ∀ k, k ≠ "accessToken" → k ≠ "claims" → k ≠ "featureFlags" →
                 payload !! k = result !! k
          else payload = no_user
    | (_, Rejected _) => True
    end in
  passes (refreshAuthAction w options) ∧
  passes (switchToOrganizationAction w organizationId).
Proof.
  intros passes. subst passes. cbv beta.
  assert (Hstrip : ∀ result,
            strip result !! "accessToken" = None ∧
            strip result !! "claims" = None ∧
            strip result !! "featureFlags"
              = Some (prop (get result "claims") "feature_flags") ∧
            ∀ k, k ≠ "accessToken" → k ≠ "claims" → k ≠ "featureFlags" →
                 strip result !! k = result !! k).
  { intros result. split_and!.
    - apply strip_accessToken.
    - apply strip_claims.
    - unfold strip. apply lookup_insert_eq.
    - intros k ? ? ?. unfold strip.
      by rewrite lookup_insert_ne, !lookup_delete_ne. }
  unfold refreshAuthAction, switchToOrganizationAction.
  split.
  - destruct (negb (truthy (get (getAuthFromContext w) "user"))
              || negb (truthy (get (getAuthFromContext w) "accessToken"))
              || negb (truthy (get (getAuthFromContext w) "sessionId")));
      [by left|].
    destruct (getSession w) as [session|e]; [|done].
    destruct (negb (truthy session) || negb (truthy (prop session "refreshToken")));
      [by left|].
    destruct (refreshSession w (session_arg (getAuthFromContext w) session)
                (prop options "organizationId")) as [result|e] eqn:Hr; [|done].
    destruct (truthy (get result "user")) eqn:Hu; simpl; right;
      exists (session_arg (getAuthFromContext w) session),
        (prop options "organizationId"), result;
      rewrite Hu; split_and!; try done; apply Hstrip.
  - destruct (negb (truthy (get (getAuthFromContext w) "user"))
              || negb (truthy (get (getAuthFromContext w) "accessToken")));
      [by left|].
    destruct (getSession w) as [session|e]; [|done].
    destruct (negb (truthy session) || negb (truthy (prop session "refreshToken")));
      [by left|].
    destruct (refreshSession w (session_arg (getAuthFromContext w) session)
                organizationId) as [result|e] eqn:Hr; [|done].
    destruct (truthy (get result "user")) eqn:Hu; simpl; right;
      exists (session_arg (getAuthFromContext w) session), organizationId, result;
      rewrite Hu; split_and!; try done; apply Hstrip.
Qed.

(** X10.  One request through the middleware rejects only with the
    configuration error (the latch was down; it stays down) or with the
    error of the resolver (the configuration counts as validated).
    Otherwise it resolves, also for a request without a user, and publishes
    the resolver's full result on the server channel and its hydration
    payload on the client channel. *)
Theorem authkitMiddleware_outcomes
    (configValidated : bool) (validateConfig : outcome unit)
    (withAuth : outcome (gmap string value)) :
  match authkitMiddleware configValidated validateConfig withAuth with
  | (latch, Rejected e) =>
      configValidated = false ∧ validateConfig = Rejected e ∧ latch = false ∨
      withAuth = Rejected e ∧ latch = true
  | (latch, Resolved ch) =>
      latch = true ∧
      ∃ authResult,
        withAuth = Resolved authResult ∧
        ch = published authResult
  end.
Proof.
  unfold authkitMiddleware.
  destruct configValidated, validateConfig as [[]|e], withAuth as [a|e'];
    simpl; eauto.
Qed.

(** X11.  Over the requests of one process the latch never comes down: it
    is up at the end exactly when it was up at the start or some request
    validated the configuration.  Once it is up the outcome of validation is
    no longer consulted: every response is the resolver's error or the
    channels of the resolver's result. *)
Theorem serve_latch (configValidated : bool)
    (requests : list (outcome unit * outcome (gmap string value))) :
  fst (serve configValidated requests)
  = configValidated
    || existsb (λ r, match r.1 with Resolved _ => true | Rejected _ => false end)
         requests ∧
  snd (serve true requests)
  = map (λ r, match r.2 with
              | Resolved authResult => Resolved (published authResult)
              | Rejected e => Rejected e
              end) requests.
Proof.
  split.
  - revert configValidated.
    induction requests as [|[validateConfig withAuth] rest IH];
      intros configValidated; simpl; [by rewrite orb_false_r|].
    destruct (authkitMiddleware configValidated validateConfig withAuth)
      as [latch response] eqn:Hm.
    specialize (IH latch). destruct (serve latch rest) as [final responses].
    simpl in *. rewrite IH. unfold authkitMiddleware in Hm.
    destruct configValidated, validateConfig as [[]|e], withAuth as [a|e'];
      simplify_eq/=; done.
  - induction requests as [|[validateConfig withAuth] rest IH]; simpl; [done|].
    destruct withAuth as [a|e]; simpl;
      destruct (serve true rest) as [final responses]; simpl in *;
      by rewrite IH.
Qed.

End ServerExtras.

(** ** Further properties of the client provider *)

Section ClientExtras.
Import Middleware Actions Provider Examples.

(** [startsWith] and [includes] mean what their names say. *)
Lemma startsWith_app p b : startsWith p (p +:+ b) = true.
Proof. induction p as [|a p IH]; simpl; [done|]. by rewrite Ascii.eqb_refl. Qed.

Lemma startsWith_inv p s : startsWith p s = true → ∃ b, s = p +:+ b.
Proof.
  revert s. induction p as [|a p IH]; intros s H; simpl in *; [by exists s|].
  destruct s as [|c s]; [done|].
  apply andb_true_iff in H as [Ha Hp]. apply Ascii.eqb_eq in Ha as ->.
  destruct (IH s Hp) as [b ->]. by exists b.
Qed.

Lemma includes_spec p s :
  includes p s = true ↔ ∃ a b, s = a +:+ p +:+ b.
Proof.
  split.
  - induction s as [|c s IH]; simpl; intros H.
    + rewrite orb_false_r in H. apply startsWith_inv in H as [b ->].
      by exists "", b.
    + apply orb_true_iff in H as [H|H].
      * apply startsWith_inv in H as [b ->]. by exists "", b.
      * destruct (IH H) as (a & b & ->). by exists (String c a), b.
  - intros (a & b & ->). induction a as [|c a IH]; simpl.
    + destruct (p +:+ b) eqn:E; simpl; rewrite <- ?E, startsWith_app; done.
    + by rewrite IH, orb_true_r.
Qed.

(** X12.  The provider's first state is the middleware's payload: for a
    signed-in request each cell holds the field of the resolver's result
    (the feature flags those of its claims), for a signed-out request the
    state is the one a provider without any hydration starts from; in both
    [loading] is false. *)
Theorem initial_state_of_hydration (authResult : gmap string value) :
  initial_state (Some (hydratedAuth authResult))
  = if truthy (get authResult "user") then
      {| user := get authResult "user";
         sessionId := get authResult "sessionId";
         organizationId := get authResult "organizationId";
         role := get authResult "role";
         roles := get authResult "roles";
         permissions := get authResult "permissions";
         entitlements := get authResult "entitlements";
         featureFlags := prop (get authResult "claims") "feature_flags";
         impersonator := get authResult "impersonator";
         loading := false |}
    else initial_state None.
Proof.
  destruct (truthy (get authResult "user")) eqn:Hu.
  - unfold initial_state. simpl. rewrite !has_get.
    unfold hydratedAuth. rewrite Hu.
    rewrite get_insert_eq, Hu.
    rewrite !(get_insert_ne _ "user") by done. rewrite get_insert_eq.
    rewrite !(get_insert_ne _ "sessionId") by done. rewrite get_insert_eq.
    rewrite !(get_insert_ne _ "organizationId") by done. rewrite get_insert_eq.
    rewrite !(get_insert_ne _ "role") by done. rewrite get_insert_eq.
    rewrite !(get_insert_ne _ "roles") by done. rewrite get_insert_eq.
    rewrite !(get_insert_ne _ "permissions") by done. rewrite get_insert_eq.
    rewrite !(get_insert_ne _ "entitlements") by done. rewrite get_insert_eq.
    rewrite !(get_insert_ne _ "featureFlags") by done. rewrite get_insert_eq.
    done.
  - by rewrite hydratedAuth_no_user.
Qed.

(** What refreshAuthAction and switchToOrganizationAction resolve to is
    [{user: null}] or has a user. *)
Lemma resolved_payload_shape (w : world) (options organizationId : value)
    calls (payload : gmap string value) :
  refreshAuthAction w options = (calls, Resolved payload) ∨
  switchToOrganizationAction w organizationId = (calls, Resolved payload) →
  payload = no_user ∨ truthy (get payload "user") = true.
Proof.
  intros [H|H]; resolved_payload H; [by left| |by left|];
    right; by rewrite strip_get.
Qed.

(** On a payload a server action can resolve to, [refreshAuth] and
    [handleSwitchToOrganization] do the same. *)
Lemma client_operations_agree_on (st : auth_state) (payload : gmap string value) :
  payload = no_user ∨ truthy (get payload "user") = true →
  final_state st (refreshAuth (Resolved payload))
  = final_state st (handleSwitchToOrganization (Resolved payload)).
Proof.
  intros [->|Hu].
  - reflexivity.
  - rewrite refreshAuth_resolved.
    unfold handleSwitchToOrganization. by rewrite Hu.
Qed.

(** X13.  On every outcome of refreshAuthAction and of
    switchToOrganizationAction the two client operations are
    interchangeable: [refreshAuth] and [handleSwitchToOrganization] complete
    alike and leave the same state.  On an arbitrary result object they leave
    the same state exactly when the object has a truthy user, or has a null
    user and none of the seven fields [refreshAuth] mirrors regardless of the
    user: otherwise [refreshAuth] keeps what the object has where
    [handleSwitchToOrganization] clears. *)
Theorem client_operations_agree_on_server_outcomes
    (st : auth_state) (w : world) (options organizationId : value)
    (transport : option thrown) :
  let agree (action : outcome (gmap string value)) :=
    final_state st (refreshAuth action)
      = final_state st (handleSwitchToOrganization action) ∧
    completes (refreshAuth action)
      = completes (handleSwitchToOrganization action) in
  agree (awaited transport (refreshAuthAction w options)) ∧
  agree (awaited transport (switchToOrganizationAction w organizationId)) ∧
  ∀ auth : gmap string value,
    final_state st (refreshAuth (Resolved auth))
      = final_state st (handleSwitchToOrganization (Resolved auth)) ↔
    truthy (get auth "user") = true ∨
    get auth "user" = VNull ∧
    get auth "organizationId" = VUndefined ∧
    get auth "role" = VUndefined ∧
    get auth "roles" = VUndefined ∧
    get auth "permissions" = VUndefined ∧
    get auth "entitlements" = VUndefined ∧
    get auth "featureFlags" = VUndefined ∧
    get auth "impersonator" = VUndefined.
Proof.
  intros agree. subst agree. cbv beta.
  split; [|split].
  - destruct transport as [e|]; [done|]. cbn [awaited].
    destruct (refreshAuthAction w options) as [calls [payload|e]] eqn:H;
      [|done].
    cbn [snd]. split.
    + apply client_operations_agree_on.
      eapply (resolved_payload_shape w options organizationId); eauto.
    + unfold handleSwitchToOrganization. by case_match.
  - destruct transport as [e|]; [done|]. cbn [awaited].
    destruct (switchToOrganizationAction w organizationId)
      as [calls [payload|e]] eqn:H; [|done].
    cbn [snd]. split.
    + apply client_operations_agree_on.
      eapply (resolved_payload_shape w options organizationId); eauto.
    + unfold handleSwitchToOrganization. by case_match.
  - intros auth. rewrite refreshAuth_resolved.
    unfold handleSwitchToOrganization.
    destruct (truthy (get auth "user")) eqn:Hu; simpl.
    + split; [by left|done].
    + unfold final_state, pending_state, commit. simpl. split.
      * intros H. right. injection H. intros. by split_and!.
      * intros [?|(-> & -> & -> & -> & -> & -> & -> & ->)]; done.
Qed.

(** With a session id in the context, SwitchToOrganization is RefreshAuth
    with the organization among its options. *)
Lemma switch_as_refreshAuth (w : world) (ensureSignedIn organizationId : value) :
  truthy (get (getAuthFromContext w) "sessionId") = true →
  switchToOrganizationAction w organizationId
  = refreshAuthAction w
      (VObj {[ "ensureSignedIn" := ensureSignedIn;
               "organizationId" := organizationId ]}).
Proof.
  intros Hs. unfold switchToOrganizationAction, refreshAuthAction.
  rewrite Hs. simpl. rewrite orb_false_r.
  assert (get {[ "ensureSignedIn" := ensureSignedIn;
                 "organizationId" := organizationId ]} "organizationId"
          = organizationId) as ->.
  { rewrite get_insert_ne by done. apply get_insert_eq. }
  done.
Qed.

(** X14.  For a request whose context has a session id, calling the client's
    [refreshAuth] with an organization id and calling
    [handleSwitchToOrganization] with it come to the same: the same calls
    of the session service on the server, the same completion and the same
    state on the client. *)
Theorem refreshAuth_with_organization_is_switch
    (st : auth_state) (w : world) (ensureSignedIn organizationId : value)
    (transport : option thrown) :
  truthy (get (getAuthFromContext w) "sessionId") = true →
  let options := VObj {[ "ensureSignedIn" := ensureSignedIn;
                         "organizationId" := organizationId ]} in
  fst (refreshAuthAction w options)
    = fst (switchToOrganizationAction w organizationId) ∧
  final_state st (refreshAuth (awaited transport (refreshAuthAction w options)))
    = final_state st
        (handleSwitchToOrganization
           (awaited transport (switchToOrganizationAction w organizationId))) ∧
  completes (refreshAuth (awaited transport (refreshAuthAction w options)))
    = completes
        (handleSwitchToOrganization
           (awaited transport (switchToOrganizationAction w organizationId))).
Proof.
  intros Hs options. subst options.
  rewrite <- (switch_as_refreshAuth w ensureSignedIn organizationId Hs).
  split; [done|].
  destruct transport as [e|]; [done|]. cbn [awaited].
  destruct (switchToOrganizationAction w organizationId)
    as [calls [payload|e]] eqn:H; [|done].
  cbn [snd]. split.
  - apply client_operations_agree_on.
    eapply (resolved_payload_shape w VUndefined organizationId); eauto.
  - unfold handleSwitchToOrganization. by case_match.
Qed.

(** The property at the signed-in request. *)
Lemma refreshAuth_with_organization_is_switch_witness :
  fst (refreshAuthAction (request signed_in refreshed)
         (VObj {[ "ensureSignedIn" := VBool false;
                  "organizationId" := VStr "org_456" ]}))
  = fst (switchToOrganizationAction (request signed_in refreshed)
           (VStr "org_456")).
Proof.
  apply (refreshAuth_with_organization_is_switch (initial_state None)
           (request signed_in refreshed) (VBool false) (VStr "org_456") None).
  vm_compute. reflexivity.
Defined.

(** X15.  [handleSignOut] navigates only on a redirect that carries a
    non-empty location, exactly once and to exactly that location, and then
    returns.  When it throws, it throws the error [signOut] rejected with,
    having navigated nowhere; a redirect without a location, or with an empty
    one, is thrown like any other error. *)
Theorem handleSignOut_navigates_to_location (host : string) (action : outcome unit) :
  match handleSignOut host action with
  | (navigations, Returns v) =>
      v = VUndefined ∧
      ((navigations = [] ∧ ∃ u, action = Resolved u) ∨
       ∃ location,
         action = Rejected (ThrowResponse (Some location)) ∧ location ≠ "" ∧
         (navigations = [AssignHref location] ∨
          navigations = [RouterNavigate location]))
  | (navigations, Throws e) =>
      navigations = [] ∧ action = Rejected e ∧
      match e with
      | ThrowResponse (Some location) => location = ""
      | _ => True
      end
  end.
Proof.
  unfold handleSignOut.
  destruct action as [u|[m|[location|]|v]]; simpl; eauto.
  destruct (String.eqb_spec location "") as [->|Hne]; simpl; [done|].
  destruct (isExternal host location); (split; [done|]); right;
    exists location; eauto.
Qed.

(** X16.  A redirect is followed by a full page navigation exactly when its
    location starts with ["http"] and the page's host occurs nowhere in it,
    as a substring of the whole location.  Every other location, a relative
    route or one that mentions the host anywhere, goes to the router. *)
Theorem handleSignOut_full_page_exactly_when (host location : string) :
  location ≠ "" →
  (handleSignOut host (Rejected (ThrowResponse (Some location)))
     = ([AssignHref location], Returns VUndefined) ↔
   startsWith "http" location = true ∧
   ∀ a b, location ≠ a +:+ host +:+ b) ∧
  (handleSignOut host (Rejected (ThrowResponse (Some location)))
     = ([RouterNavigate location], Returns VUndefined) ↔
   startsWith "http" location = false ∨
   ∃ a b, location = a +:+ host +:+ b).
Proof.
  intros Hne. rewrite handleSignOut_redirect by done.
  destruct (startsWith "http" location); simpl.
  - destruct (includes host location) eqn:Hi; simpl.
    + apply includes_spec in Hi as (a & b & Hab).
      split; split; try done.
      * intros [_ H]. by destruct (H a b).
      * intros _. right. eauto.
    + split; split; try done.
      * intros _. split; [done|]. intros a b Hab.
        assert (includes host location = true) by (apply includes_spec; eauto).
        congruence.
      * intros [?|H]; [done|]. apply includes_spec in H. congruence.
  - split; split; try done.
    + by intros [? _].
    + intros _. by left.
Qed.

(** A route of the application and an absolute address on the page's host. *)
Lemma handleSignOut_full_page_exactly_when_witness :
  handleSignOut "app.example.com"
    (Rejected (ThrowResponse (Some "https://app.example.com/home")))
  = ([RouterNavigate "https://app.example.com/home"], Returns VUndefined).
Proof.
  apply (handleSignOut_full_page_exactly_when "app.example.com"
           "https://app.example.com/home"); [done|].
  right. by exists "https://", "/home".
Defined.

End ClientExtras.

(** ** Further properties of the session-expiry watcher *)

Section WatcherExtras.
Import Watcher.

Ltac run_handler :=
  unfold step, handleVisibilityChange, handleVisibilityChange_settled.

Lemma checks_app l l' : checks (l ++ l') = checks l + checks l'.
Proof. induction l as [|[] l IH]; simpl; lia. Qed.

Lemma reactions_app l l' : reactions (l ++ l') = reactions l + reactions l'.
Proof. induction l as [|[] l IH]; simpl; lia. Qed.

Lemma on_catch_counts p error :
  checks (on_catch p error) = 0 ∧ reactions (on_catch p error) ≤ 1.
Proof.
  destruct error as [message| |]; simpl; [|split; lia..].
  destruct (includes "Failed to fetch" message), p; simpl; split; lia.
Qed.

(** An invariant of [step] holds after every run from the mount. *)
Lemma run_events_invariant (P : watcher → Prop) p :
  P mounted → (∀ w e, P w → P (step p w e)) → ∀ es, P (run_events p es).
Proof.
  intros H0 Hstep es. unfold run_events. generalize mounted H0.
  induction es as [|e es IH]; intros w Hw; [done|].
  simpl. apply IH. by apply Hstep.
Qed.

(** X17.  After any sequence of events, the calls of [onSessionExpired] and
    the reloads number at most the checks that have completed: each
    reaction belongs to a [checkSessionAction()] call that was issued and has
    settled. *)
Theorem reactions_bounded_by_completed_checks
    (p : onSessionExpired_prop) (es : list event) :
  let w := run_events p es in
  reactions (effects w) + in_flight w ≤ checks (effects w).
Proof.
  cbv zeta. apply run_events_invariant with
    (P := λ w, reactions (effects w) + in_flight w ≤ checks (effects w));
    [simpl; lia|].
  intros w e Hw. destruct p; [done| |];
    (destruct e as [visible|o]; run_handler;
     [ destruct (visibilityChangedCalled w), visible; simpl;
       rewrite ?checks_app, ?reactions_app; simpl; lia
     | destruct (in_flight w) as [|rest] eqn:Hn; simpl; [lia|];
       rewrite checks_app, reactions_app;
       destruct (caught o) as [error|]; simpl;
       [ match goal with
         | |- context [on_catch ?q error] =>
             destruct (on_catch_counts q error)
         end; lia
       | lia ] ]).
Qed.

(** X18.  The [onSessionExpired] prop decides which reaction can occur at
    all: with a callback supplied the page is never reloaded, without one the
    callback is never called, and with [false] the watcher has no effect
    whatever the events. *)
Theorem reaction_follows_prop (p : onSessionExpired_prop) (es : list event) :
  match p with
  | Callback => Reload ∉ effects (run_events p es)
  | Unset => CallOnSessionExpired ∉ effects (run_events p es)
  | OptOut => effects (run_events p es) = []
  end.
Proof.
  destruct p.
  - by rewrite run_events_OptOut.
  - apply run_events_invariant with (P := λ w, Reload ∉ effects w);
      [simpl; apply not_elem_of_nil|].
    intros w e Hw. destruct e as [visible|o]; run_handler.
    + destruct (visibilityChangedCalled w), visible; simpl; try done.
      rewrite elem_of_app, list_elem_of_singleton. by intros [?|?].
    + destruct (in_flight w); simpl; [done|].
      rewrite elem_of_app. intros [?|H]; [done|].
      destruct (caught o) as [[message| |]|]; simpl in H;
        try (by apply elem_of_nil in H).
      destruct (includes "Failed to fetch" message);
        [by apply list_elem_of_singleton in H | by apply elem_of_nil in H].
  - apply run_events_invariant with (P := λ w, CallOnSessionExpired ∉ effects w);
      [simpl; apply not_elem_of_nil|].
    intros w e Hw. destruct e as [visible|o]; run_handler.
    + destruct (visibilityChangedCalled w), visible; simpl; try done.
      rewrite elem_of_app, list_elem_of_singleton. by intros [?|?].
    + destruct (in_flight w); simpl; [done|].
      rewrite elem_of_app. intros [?|H]; [done|].
      destruct (caught o) as [[message| |]|]; simpl in H;
        try (by apply elem_of_nil in H).
      destruct (includes "Failed to fetch" message);
        [by apply list_elem_of_singleton in H | by apply elem_of_nil in H].
Qed.

(** X19.  Only a check that rejects with an [Error] whose message contains
    ['Failed to fetch'] makes the watcher react.  In a run where no check
    settles that way there is neither a callback nor a reload, whatever the
    checks resolve to (true, false, anything) and whatever else they reject
    with (a [Response], a plain string). *)
Theorem reacts_only_to_failed_fetch (p : onSessionExpired_prop) (es : list event) :
  Forall (λ e, match e with
               | Settled (Rejected (ThrowError message)) =>
                   includes "Failed to fetch" message = false
               | _ => True
               end) es →
  reactions (effects (run_events p es)) = 0.
Proof.
  unfold run_events. generalize mounted (eq_refl : reactions (effects mounted) = 0).
  induction es as [|e es IH]; intros w Hw Hes; [done|].
  apply Forall_cons in Hes as [He Hes]. simpl. apply IH; [|done].
  destruct p; [done| |];
    (destruct e as [visible|o]; run_handler;
     [ destruct (visibilityChangedCalled w), visible; simpl;
       rewrite ?reactions_app; simpl; lia
     | destruct (in_flight w); simpl; [done|];
       rewrite reactions_app, Hw; simpl;
       destruct o as [hasSession|[message| |]]; simpl;
       [ by destruct (truthy hasSession) | by rewrite He | done | done ] ]).
Qed.

(** A run in which the session turns out expired and a check fails with a
    redirect. *)
Lemma reacts_only_to_failed_fetch_witness :
  reactions (effects (run_events Callback
    [ Dispatched true; Settled (Resolved (VBool false));
      Dispatched true; Settled (Rejected (ThrowResponse None));
      Dispatched true; Settled (Rejected (ThrowValue (VStr "Failed to fetch"))) ]))
  = 0.
Proof.
  apply (reacts_only_to_failed_fetch Callback). repeat constructor.
Defined.

(** X20.  The latch never stays up: once the pending check has settled, on
    any path, the next event with the document visible issues one new
    check. *)
Theorem next_visible_event_checks_again
    (p : onSessionExpired_prop) (es : list event) (o : outcome value) :
  p ≠ OptOut →
  let w := step p (run_events p es) (Settled o) in
  effects (step p w (Dispatched true)) = effects w ++ [CallCheckSession] ∧
  in_flight (step p w (Dispatched true)) = 1.
Proof.
  intros Hp w. pose proof (latched_run p es) as Hw.
  assert (Hs : visibilityChangedCalled w = false ∧ in_flight w = 0).
  { subst w. revert Hw. generalize (run_events p es). intros w0 Hw.
    run_handler.
    destruct Hw as [[Hf Hn]|[Hf Hn]]; destruct p;
      rewrite ?Hn; simpl; rewrite ?Hf, ?Hn; done. }
  clearbody w. destruct Hs as [Hf Hn]. run_handler.
  destruct p; [done| |]; by rewrite Hf, Hn.
Qed.

(** Two rounds of regaining focus, the first check failing. *)
Lemma next_visible_event_checks_again_witness :
  in_flight
    (step Unset
       (step Unset (run_events Unset [Dispatched true])
          (Settled (Rejected (ThrowError "Failed to fetch"))))
       (Dispatched true)) = 1.
Proof.
  apply (next_visible_event_checks_again Unset [Dispatched true]
           (Rejected (ThrowError "Failed to fetch"))).
  done.
Defined.

(** X21.  No check is ever issued without an event arriving while the
    document is visible: events on a hidden document and settlements alone
    leave the watcher as it was mounted. *)
Theorem no_check_without_visible_event
    (p : onSessionExpired_prop) (es : list event) :
  Forall (λ e, e ≠ Dispatched true) es →
  run_events p es = mounted.
Proof.
  unfold run_events. induction es as [|e es IH]; intros Hes; [done|].
  apply Forall_cons in Hes as [He Hes]. simpl.
  assert (step p mounted e = mounted) as ->; [|by apply IH].
  destruct p; [done| |]; by destruct e as [[|]|o].
Qed.

(** Focus events on a hidden tab. *)
Lemma no_check_without_visible_event_witness :
  run_events Callback [Dispatched false; Dispatched false] = mounted.
Proof.
  apply (no_check_without_visible_event Callback). by repeat constructor.
Defined.

End WatcherExtras.
